(** * mangum.protocols.websockets: the WebSocket application cycle

    A shallow embedding of [src/mangum/protocols/websockets.py] and the
    properties of its lifecycle controller, [WebSocketCycle].

    The ASGI application handed to the cycle is an arbitrary coroutine that
    awaits the [receive] and [send] capabilities, returns, raises, or never
    finishes.  It is embedded as an interaction tree over the three things a
    coroutine can do to the cycle; the cycle's methods give these events
    their meaning on the cycle object, whose mutable attributes are threaded
    explicitly. *)

From Stdlib Require Import List String ZArith Lia Bool Wf_nat.
From ITree Require Import ITree.
Import ListNotations.

Local Open Scope Z_scope.

(** ** Data model *)

Definition bytes := list Byte.byte.

(** [typing.Any], restricted to the values ASGI events and scopes carry. *)
Inductive Any : Type :=
| ANone
| AStr (s : string)
| ABytes (b : bytes)
| AInt (z : Z).

(** [typing.Dict[str, typing.Any]], in insertion order. *)
Definition Dict := list (string * Any).

(** [Message]: one ASGI event. *)
Definition Message := Dict.

(** [class WebSocketCycleState(enum.Enum)]. *)
Inductive WebSocketCycleState : Type :=
| CONNECTING
| HANDSHAKE
| RESPONSE
| DISCONNECTING
| CLOSED.

(** Modelled from the spec: [mangum.types] is not part of the sources.  The
    request carries the opaque connection scope, read as [request.scope]. *)
Record WsRequest : Type := mkWsRequest {
  scope : Dict
}.

(** Modelled from the spec: [mangum.types.Response] is not part of the
    sources.  It is built positionally as [Response(200, [], b"")] and its
    [status] attribute is assigned; the result is a status code, an ordered
    header list and a byte body. *)
Record Response : Type := mkResponse {
  status : Z;
  headers : list (bytes * bytes);
  body : bytes
}.

(** Modelled from the spec: [mangum.exceptions] is not part of the sources.
    [WebSocketClosed] and [UnexpectedMessage] are two unrelated exception
    classes; every other exception an application can raise is kept with the
    name of its class. *)
Inductive exn : Type :=
| WebSocketClosed
| UnexpectedMessage
| OtherException (cls : string).

(** ** [asyncio.Queue()], unbounded

    [put] appends at the right end and never waits (no [maxsize]); [get]
    removes the left-most item, and waits when there is none. *)
Module Queue.

Definition t := list Message.

Definition empty : t := [].

Definition put (q : t) (item : Message) : t := q ++ [item].

(** [None]: the queue is empty and the caller is parked on a future. *)
Definition get (q : t) : option (Message * t) :=
  match q with
  | [] => None
  | item :: q' => Some (item, q')
  end.

End Queue.

(** ** The cycle object

    [@dataclass class WebSocketCycle]: the four dataclass fields, the
    attributes set by [__post_init__], and [initial_body], which exists only
    once [__call__] has run.  [body_io] is the attribute [self.body] (the
    name [body] is the response's).  The logger and the event loop carry no
    data of the cycle and are left out. *)
Record WebSocketCycle : Type := mkWebSocketCycle {
  request : WsRequest;
  message_type : string;
  connection_id : string;
  state : WebSocketCycleState;
  app_queue : Queue.t;
  body_io : bytes;
  response : Response;
  initial_body : option bytes
}.

(** Attribute updates used by the methods below. *)
Definition set_app_queue (q : Queue.t) (self : WebSocketCycle) : WebSocketCycle :=
  mkWebSocketCycle self.(request) self.(message_type) self.(connection_id)
    self.(state) q self.(body_io) self.(response) self.(initial_body).

Definition set_initial_body (b : bytes) (self : WebSocketCycle) : WebSocketCycle :=
  mkWebSocketCycle self.(request) self.(message_type) self.(connection_id)
    self.(state) self.(app_queue) self.(body_io) self.(response) (Some b).

(** [self.response.status = code]. *)
Definition set_response_status (code : Z) (self : WebSocketCycle) : WebSocketCycle :=
  mkWebSocketCycle self.(request) self.(message_type) self.(connection_id)
    self.(state) self.(app_queue) self.(body_io)
    (mkResponse code self.(response).(headers) self.(response).(body))
    self.(initial_body).

(** [__post_init__], applied by the generated [__init__] to the four fields. *)
Definition __post_init__ (request : WsRequest) (message_type connection_id : string)
    (state : WebSocketCycleState) : WebSocketCycle :=
  {| request := request;
     message_type := message_type;
     connection_id := connection_id;
     state := state;
     app_queue := Queue.empty;
     body_io := [];
     response := mkResponse 200 [] [];
     initial_body := None |}.

(** [WebSocketCycle(request, message_type, connection_id)], with the default
    [state]. *)
Definition new_cycle (request : WsRequest) (message_type connection_id : string)
    : WebSocketCycle :=
  __post_init__ request message_type connection_id CONNECTING.

(** ** The application

    What the coroutine [app(scope, receive, send)] can do to the cycle:
    await [receive()], await [send(message)], or raise. *)
Variant asgiE : Type -> Type :=
| Receive : asgiE Message
| Send (message : Message) : asgiE unit
| Raise (e : exn) : asgiE Empty_set.

Definition ASGIApp := Dict -> itree asgiE unit.

(** How a task or a call ends. *)
Inductive outcome (A : Type) : Type :=
| Finished (a : A) (self : WebSocketCycle)
    (** returned [a] *)
| Failed (e : exn) (self : WebSocketCycle)
    (** raised [e] *)
| Suspended (self : WebSocketCycle)
    (** parked on [app_queue.get()]; the loop has no other task that could
        put an item, so [run_until_complete] never returns *)
| Unfinished
    (** still running when the step budget ran out *).

Arguments Finished {A} a self.
Arguments Failed {A} e self.
Arguments Suspended {A} self.
Arguments Unfinished {A}.

(** ** The methods of [WebSocketCycle] *)

(** [async def receive(self)]: [return await self.app_queue.get()]. *)
Definition receive (self : WebSocketCycle) : option (Message * WebSocketCycle) :=
  match Queue.get self.(app_queue) with
  | Some (item, q) => Some (item, set_app_queue q self)
  | None => None
  end.

(** [async def send(self, message)]: [return await self.app_queue.put(message)]. *)
Definition send (message : Message) (self : WebSocketCycle) : WebSocketCycle :=
  set_app_queue (Queue.put self.(app_queue) message) self.

(** The application coroutine driven by the event loop, its awaits answered
    by [receive] and [send]. *)
Fixpoint await_app (fuel : nat) (t : itree asgiE unit) (self : WebSocketCycle)
    : outcome unit :=
  match fuel with
  | O => Unfinished
  | S fuel' =>
      match observe t with
      | RetF r => Finished r self
      | TauF t' => await_app fuel' t' self
      | VisF e k =>
          match e in asgiE X return (X -> itree asgiE unit) -> outcome unit with
          | Receive => fun k =>
              match receive self with
              | Some (item, self') => await_app fuel' (k item) self'
              | None => Suspended self
              end
          | Send message => fun k => await_app fuel' (k tt) (send message self)
          | Raise e => fun _ => Failed e self
          end k
      end
  end.

(** What passes between the application and the queue while the task runs:
    the events [receive] handed to the application and the events the
    application passed to [send], each in order.  Same steps as [await_app]. *)
Fixpoint exchanged (fuel : nat) (t : itree asgiE unit) (self : WebSocketCycle)
    : list Message * list Message :=
  match fuel with
  | O => ([], [])
  | S fuel' =>
      match observe t with
      | RetF _ => ([], [])
      | TauF t' => exchanged fuel' t' self
      | VisF e k =>
          match e in asgiE X
                return (X -> itree asgiE unit) -> list Message * list Message with
          | Receive => fun k =>
              match receive self with
              | Some (item, self') =>
                  let (received, sent) := exchanged fuel' (k item) self' in
                  (item :: received, sent)
              | None => ([], [])
              end
          | Send message => fun k =>
              let (received, sent) := exchanged fuel' (k tt) (send message self) in
              (received, message :: sent)
          | Raise _ => fun _ => ([], [])
          end k
      end
  end.

(** [async def run(self, app)]: the three [except] clauses, in order. *)
Definition run (fuel : nat) (app : ASGIApp) (self : WebSocketCycle) : outcome unit :=
  match await_app fuel (app self.(request).(scope)) self with
  | Finished _ self' => Finished tt self'
  | Failed WebSocketClosed self' => Finished tt (set_response_status 403 self')
  | Failed UnexpectedMessage self' => Finished tt (set_response_status 500 self')
  | Failed (OtherException _) self' => Finished tt (set_response_status 500 self')
  | Suspended self' => Suspended self'
  | Unfinished => Unfinished
  end.

(** [def __call__(self, app, initial_body)].  [run_until_complete] returns
    when the task is done and re-raises what the task raised; the line that
    would put [websocket.connect] on the queue is commented out in the
    source, so nothing is put. *)
Definition __call__ (fuel : nat) (app : ASGIApp) (initial_body : bytes)
    (self : WebSocketCycle) : outcome Response :=
  let self := set_initial_body initial_body self in
  match run fuel app self with
  | Finished _ self' => Finished self'.(response) self'
  | Failed e self' => Failed e self'
  | Suspended self' => Suspended self'
  | Unfinished => Unfinished
  end.

(** What is left of the cycle object when a task or call has stopped. *)
Definition cycle_of {A : Type} (o : outcome A) : option WebSocketCycle :=
  match o with
  | Finished _ self | Failed _ self | Suspended self => Some self
  | Unfinished => None
  end.

(** The status [run] leaves in the response for an exception of the task. *)
Definition status_for (e : exn) : Z :=
  match e with
  | WebSocketClosed => 403
  | UnexpectedMessage => 500
  | OtherException _ => 500
  end.

(** [send] called on each message of [ms] in turn, then [receive] called [n]
    times in a row, collecting what it returns. *)
Fixpoint send_all (ms : list Message) (self : WebSocketCycle) : WebSocketCycle :=
  match ms with
  | [] => self
  | m :: ms' => send_all ms' (send m self)
  end.

Fixpoint receive_n (n : nat) (self : WebSocketCycle)
    : option (list Message * WebSocketCycle) :=
  match n with
  | O => Some ([], self)
  | S n' =>
      match receive self with
      | None => None
      | Some (m, self') =>
          match receive_n n' self' with
          | None => None
          | Some (ms, self'') => Some (m :: ms, self'')
          end
      end
  end.

(** ** Sample applications *)

Module Apps.

Definition event (type : string) : Message := [("type"%string, AStr type)].

Definition receive_event (data : bytes) : Message :=
  [("type"%string, AStr "websocket.receive"); ("bytes"%string, ABytes data)].

(** [async def app(scope, receive, send): pass] *)
Definition noop : ASGIApp := fun _ => Ret tt.

(** [await send({"type": "websocket.accept"})] *)
Definition accept : ASGIApp :=
  fun _ => ITree.trigger (Send (event "websocket.accept")).

(** [raise WebSocketClosed] *)
Definition reject : ASGIApp :=
  fun _ => Vis (Raise WebSocketClosed) (fun v : Empty_set => match v with end).

(** [raise UnexpectedMessage] *)
Definition unexpected : ASGIApp :=
  fun _ => Vis (Raise UnexpectedMessage) (fun v : Empty_set => match v with end).

(** [await receive()], the first thing an ASGI websocket application does. *)
Definition receive_first : ASGIApp :=
  fun _ => ITree.bind (ITree.trigger Receive) (fun _ => Ret tt).

(** [await send(m); e = await receive(); if e != m: raise UnexpectedMessage]
    for [m = {"type": "websocket.close"}]; the comparison is on the length
    of the event that comes back. *)
Definition loopback : ASGIApp :=
  fun _ =>
    ITree.bind (ITree.trigger (Send (event "websocket.close")))
      (fun _ => ITree.bind (ITree.trigger Receive)
         (fun e => match e with
                   | [_] => Ret tt
                   | _ => Vis (Raise UnexpectedMessage)
                            (fun v : Empty_set => match v with end)
                   end)).

(** [while True: await send({"type": "websocket.send"})] *)
Definition chatter : ASGIApp :=
  fun _ => ITree.forever (ITree.trigger (Send (event "websocket.send"))).

Definition req : WsRequest := mkWsRequest [("type"%string, AStr "websocket")].

(** Freshly constructed cycles for the three kinds of invocation. *)
Definition connect_cycle : WebSocketCycle := new_cycle req "connect" "conn-1".
Definition message_cycle : WebSocketCycle := new_cycle req "message" "conn-1".
Definition disconnect_cycle : WebSocketCycle :=
  new_cycle req "disconnect" "conn-1".

Definition three_events : list Message :=
  [event "websocket.accept"; receive_event []; event "websocket.close"].

End Apps.

(** ** Scripted applications and views of an outcome *)

(** [for m in ms: await send(m)] *)
Fixpoint send_each (ms : list Message) : itree asgiE unit :=
  match ms with
  | [] => Ret tt
  | m :: ms' => Vis (Send m) (fun _ => send_each ms')
  end.

(** [for _ in range(n): await receive()] *)
Fixpoint receive_times (n : nat) : itree asgiE unit :=
  match n with
  | O => Ret tt
  | S n' => Vis Receive (fun _ => receive_times n')
  end.

(** The value a call hands back to its caller, if it returns. *)
Definition returned {A : Type} (o : outcome A) : option A :=
  match o with
  | Finished a _ => Some a
  | _ => None
  end.

(** The events still on the queue when a task or call has stopped. *)
Definition queue_left {A : Type} (o : outcome A) : option Queue.t :=
  option_map app_queue (cycle_of o).

(** The same outcome on another cycle object. *)
Definition map_cycle {A : Type} (f : WebSocketCycle -> WebSocketCycle)
    (o : outcome A) : outcome A :=
  match o with
  | Finished a self => Finished a (f self)
  | Failed e self => Failed e (f self)
  | Suspended self => Suspended (f self)
  | Unfinished => Unfinished
  end.

(** ** Basic facts *)

Lemma set_app_queue_same (self : WebSocketCycle) :
  set_app_queue self.(app_queue) self = self.
Proof. destruct self; reflexivity. Qed.

Lemma set_app_queue_twice (q q' : Queue.t) (self : WebSocketCycle) :
  set_app_queue q (set_app_queue q' self) = set_app_queue q self.
Proof. reflexivity. Qed.

Lemma send_queue (m : Message) (self : WebSocketCycle) :
  send m self = set_app_queue (self.(app_queue) ++ [m]) self.
Proof. reflexivity. Qed.

Lemma receive_some (self : WebSocketCycle) (m : Message) (q : Queue.t) :
  self.(app_queue) = m :: q -> receive self = Some (m, set_app_queue q self).
Proof. unfold receive; intros ->; reflexivity. Qed.

Lemma receive_none (self : WebSocketCycle) :
  self.(app_queue) = [] -> receive self = None.
Proof. unfold receive; intros ->; reflexivity. Qed.

Lemma receive_inv (self self' : WebSocketCycle) (m : Message) :
  receive self = Some (m, self') ->
  exists q, self.(app_queue) = m :: q /\ self' = set_app_queue q self.
Proof.
  unfold receive, Queue.get.
  destruct (app_queue self) as [|m0 q]; [discriminate|].
  intros [= <- <-]; eauto.
Qed.

(** The application task touches the cycle through [send] and [receive]
    only, so whatever it does, all it can change is the queue. *)
Lemma await_app_only_queue (fuel : nat) :
  forall (t : itree asgiE unit) (self self' : WebSocketCycle),
    cycle_of (await_app fuel t self) = Some self' ->
    exists q, self' = set_app_queue q self.
Proof.
  induction fuel as [|fuel IH]; intros t self self'; cbn.
  - discriminate.
  - destruct (observe t) as [r|t'|X e k].
    + intros [= <-]. exists (app_queue self). now rewrite set_app_queue_same.
    + apply IH.
    + destruct e as [|m|e].
      * destruct (receive self) as [[m s1]|] eqn:Hr.
        -- apply receive_inv in Hr as (q & _ & ->).
           intros H. apply IH in H as (q' & ->). now exists q'.
        -- intros [= <-]. exists (app_queue self). now rewrite set_app_queue_same.
      * intros H. apply IH in H as (q' & ->). now exists q'.
      * intros [= <-]. exists (app_queue self). now rewrite set_app_queue_same.
Qed.

(** A task that has stopped within some budget stops the same way within
    any larger one. *)
Lemma await_app_more_fuel (fuel : nat) :
  forall (t : itree asgiE unit) (self : WebSocketCycle) (extra : nat),
    await_app fuel t self <> Unfinished ->
    await_app (fuel + extra) t self = await_app fuel t self.
Proof.
  induction fuel as [|fuel IH]; intros t self extra; cbn.
  - congruence.
  - destruct (observe t) as [r|t'|X e k]; [reflexivity | apply IH |].
    destruct e as [|m|e]; [|apply IH|reflexivity].
    destruct (receive self) as [[m s1]|]; [apply IH|reflexivity].
Qed.

(** Nothing but the application feeds the queue: what the application has
    received so far is a prefix of what the queue held at the start followed
    by what the application itself has sent, and once the task has stopped
    the rest is what the queue still holds. *)
Lemma exchanged_conservation (fuel : nat) :
  forall (t : itree asgiE unit) (self : WebSocketCycle),
    exists rest,
      self.(app_queue) ++ snd (exchanged fuel t self)
        = fst (exchanged fuel t self) ++ rest /\
      forall self', cycle_of (await_app fuel t self) = Some self' ->
                    rest = self'.(app_queue).
Proof.
  induction fuel as [|fuel IH]; intros t self; cbn.
  - exists (app_queue self). rewrite app_nil_r. split; [reflexivity|discriminate].
  - destruct (observe t) as [r|t'|X e k]; cbn.
    + exists (app_queue self). rewrite app_nil_r.
      split; [reflexivity | now intros self' [= <-]].
    + apply IH.
    + destruct e as [|m|e]; cbn.
      * destruct (receive self) as [[item s1]|] eqn:Hr; cbn.
        -- apply receive_inv in Hr as (q & Hq & ->).
           destruct (IH (k item) (set_app_queue q self)) as (rest & Heq & Hrest).
           destruct (exchanged fuel (k item) (set_app_queue q self))
             as [received sent].
           exists rest. cbn in *. rewrite Hq. cbn. now rewrite Heq.
        -- exists (app_queue self). rewrite app_nil_r.
           split; [reflexivity | now intros self' [= <-]].
      * destruct (IH (k tt) (send m self)) as (rest & Heq & Hrest).
        destruct (exchanged fuel (k tt) (send m self)) as [received sent].
        exists rest. cbn in *. unfold Queue.put in Heq.
        now rewrite <- Heq, <- app_assoc.
      * exists (app_queue self). rewrite app_nil_r.
        split; [reflexivity | now intros self' [= <-]].
Qed.

(** An application that sends for ever never finishes, whatever the budget. *)
Lemma chatter_never_finishes (sc : Dict) (fuel : nat) :
  forall self, await_app fuel (Apps.chatter sc) self = Unfinished.
Proof.
  induction fuel as [fuel IH] using (well_founded_induction lt_wf).
  intros self. destruct fuel as [|[|fuel]]; [reflexivity | reflexivity |].
  change (await_app (S (S fuel)) (Apps.chatter sc) self)
    with (await_app fuel (Apps.chatter sc)
            (send (Apps.event "websocket.send") self)).
  apply IH. lia.
Qed.

(** [__call__] in one equation: the result is decided by how the
    application task ends. *)
Lemma call_unfold (fuel : nat) (app : ASGIApp) (b : bytes) (self : WebSocketCycle) :
  __call__ fuel app b self =
  match await_app fuel (app self.(request).(scope)) (set_initial_body b self) with
  | Finished _ s => Finished s.(response) s
  | Failed e s =>
      Finished (mkResponse (status_for e) s.(response).(headers) s.(response).(body))
               (set_response_status (status_for e) s)
  | Suspended s => Suspended s
  | Unfinished => Unfinished
  end.
Proof.
  unfold __call__, run; cbn.
  destruct (await_app _ _ _) as [[] s|[] s|s|]; reflexivity.
Qed.

Lemma call_more_fuel (fuel extra : nat) (app : ASGIApp) (b : bytes)
    (self : WebSocketCycle) :
  __call__ fuel app b self <> Unfinished ->
  __call__ (fuel + extra) app b self = __call__ fuel app b self.
Proof.
  rewrite !call_unfold. intros H.
  rewrite await_app_more_fuel; [reflexivity|].
  intros E; rewrite E in H; congruence.
Qed.

(** The queue after a run of [send]s, and what [receive] then hands out. *)
Lemma send_all_queue (ms : list Message) :
  forall self, send_all ms self = set_app_queue (self.(app_queue) ++ ms) self.
Proof.
  induction ms as [|m ms IH]; intros self; cbn.
  - now rewrite app_nil_r, set_app_queue_same.
  - rewrite IH, send_queue; cbn. now rewrite <- app_assoc.
Qed.

Lemma receive_n_queue (q : Queue.t) :
  forall self,
    receive_n (List.length q) (set_app_queue q self) = Some (q, set_app_queue [] self).
Proof.
  induction q as [|m q IH]; intros self.
  - reflexivity.
  - change (receive_n (List.length (m :: q)) (set_app_queue (m :: q) self))
      with (match receive (set_app_queue (m :: q) self) with
            | None => None
            | Some (m', self') =>
                match receive_n (List.length q) self' with
                | None => None
                | Some (ms, self'') => Some (m' :: ms, self'')
                end
            end).
    rewrite (receive_some (set_app_queue (m :: q) self) m q eq_refl).
    rewrite set_app_queue_twice, IH.
    reflexivity.
Qed.

Lemma receive_n_send_all (ms : list Message) (self : WebSocketCycle) :
  receive_n (List.length self.(app_queue) + List.length ms) (send_all ms self)
  = Some (self.(app_queue) ++ ms, set_app_queue [] self).
Proof.
  rewrite send_all_queue, <- length_app. apply receive_n_queue.
Qed.

(** Whatever the application does and however the call ends, the cycle it
    leaves behind differs from the one it started with in the queue, the
    stored initial body and the response status at most. *)
Lemma call_frame (fuel : nat) (app : ASGIApp) (b : bytes)
    (self self' : WebSocketCycle) :
  cycle_of (__call__ fuel app b self) = Some self' ->
  self'.(state) = self.(state) /\
  self'.(request) = self.(request) /\
  self'.(message_type) = self.(message_type) /\
  self'.(connection_id) = self.(connection_id) /\
  self'.(initial_body) = Some b /\
  self'.(response).(headers) = self.(response).(headers) /\
  self'.(response).(body) = self.(response).(body).
Proof.
  rewrite call_unfold.
  destruct (await_app _ _ _) as [u s|e s|s|] eqn:Ht; cbn; try discriminate;
    intros [= <-];
    (assert (Hs : cycle_of (await_app fuel (app (scope (request self)))
                              (set_initial_body b self)) = Some s)
       by (rewrite Ht; reflexivity));
    apply await_app_only_queue in Hs as (q & ->); cbn; repeat split.
Qed.

(** When the application task completes without raising, the call returns
    the response as it stood before the call. *)
Lemma call_app_finished (fuel : nat) (app : ASGIApp) (b : bytes)
    (self s : WebSocketCycle) :
  await_app fuel (app self.(request).(scope)) (set_initial_body b self)
    = Finished tt s ->
  __call__ fuel app b self = Finished self.(response) s /\
  s.(response) = self.(response) /\ s.(state) = self.(state).
Proof.
  intros Ht.
  assert (Hs : cycle_of (await_app fuel (app (scope (request self)))
                           (set_initial_body b self)) = Some s)
    by (rewrite Ht; reflexivity).
  apply await_app_only_queue in Hs as (q & Hq).
  rewrite call_unfold, Ht. subst s. cbn. repeat split.
Qed.

(** When the application task raises, the call still returns: the response
    as it stood, with the status the matching [except] clause assigns. *)
Lemma call_app_failed (fuel : nat) (app : ASGIApp) (b : bytes)
    (self s : WebSocketCycle) (e : exn) :
  await_app fuel (app self.(request).(scope)) (set_initial_body b self)
    = Failed e s ->
  __call__ fuel app b self
    = Finished (mkResponse (status_for e) self.(response).(headers)
                  self.(response).(body))
               (set_response_status (status_for e) s) /\
  s.(state) = self.(state).
Proof.
  intros Ht.
  assert (Hs : cycle_of (await_app fuel (app (scope (request self)))
                           (set_initial_body b self)) = Some s)
    by (rewrite Ht; reflexivity).
  apply await_app_only_queue in Hs as (q & Hq).
  rewrite call_unfold, Ht. subst s. cbn. repeat split.
Qed.

(** The response a call returns is the one the cycle held before the call,
    up to the status, which changes only when the task raised. *)
Lemma call_returns_old_response (fuel : nat) (app : ASGIApp) (b : bytes)
    (self s : WebSocketCycle) (r : Response) :
  __call__ fuel app b self = Finished r s ->
  r.(headers) = self.(response).(headers) /\
  r.(body) = self.(response).(body) /\
  (r.(status) = self.(response).(status) \/
   exists e s0,
     await_app fuel (app self.(request).(scope)) (set_initial_body b self)
       = Failed e s0 /\
     r.(status) = status_for e).
Proof.
  rewrite call_unfold.
  destruct (await_app _ _ _) as [u s0|e s0|s0|] eqn:Ht; try discriminate;
    (assert (Hs : cycle_of (await_app fuel (app (scope (request self)))
                              (set_initial_body b self)) = Some s0)
       by (rewrite Ht; reflexivity));
    apply await_app_only_queue in Hs as (q & ->);
    intros [= <- <-]; cbn; repeat split; eauto.
Qed.

(** ** The claims *)

Section Claims.

Variables (req : WsRequest) (cid : string) (st : WebSocketCycleState).

(** C1: the controller is to inject exactly one event matching the
    invocation's message type into the application queue.  The code puts
    nothing: for every message type, initial body and construction state the
    queue is empty when the application task starts; an application whose
    first step is [await receive()] stays parked on the empty queue whatever
    step budget it is given, so the call never returns; and for every
    application, what it receives while it runs is a prefix of what it has
    sent itself. *)
Theorem call_injects_no_event (mt : string) (b : bytes) :
  let self := set_initial_body b (__post_init__ req mt cid st) in
  self.(app_queue) = Queue.empty /\
  (forall fuel k,
     __call__ (S fuel) (fun _ => Vis Receive k) b (__post_init__ req mt cid st)
     = Suspended self) /\
  (forall fuel (app : ASGIApp),
     exists rest,
       snd (exchanged fuel (app req.(scope)) self)
       = fst (exchanged fuel (app req.(scope)) self) ++ rest).
Proof.
  cbn zeta. repeat split.
  intros fuel app.
  destruct (exchanged_conservation fuel (app (scope req))
              (set_initial_body b (__post_init__ req mt cid st)))
    as (rest & Heq & _).
  now exists rest.
Qed.

(** C2: in a [message] invocation with initial body [B] the application's
    first [receive] is to return a receive event carrying [B].  The code
    stores [B] in the attribute [initial_body] and nowhere else: the
    application obtains no event, its [receive] is parked on a queue that is
    still empty. *)
Theorem message_body_not_delivered (B : bytes) (fuel : nat)
    (k : Message -> itree asgiE unit) :
  exists self',
    __call__ (S fuel) (fun _ => Vis Receive k) B (__post_init__ req "message" cid st)
      = Suspended self' /\
    self'.(app_queue) = [] /\
    self'.(initial_body) = Some B /\
    receive self' = None.
Proof. eexists; repeat split. Qed.

(** What the code does in a [connect] invocation whose application accepts
    (its task completes without raising), whatever the application: the call
    returns status 200, with no headers and an empty body, and the state is
    never advanced, it is the one the cycle was constructed with. *)
Theorem connect_accept_status_and_state (fuel : nat) (app : ASGIApp) (b : bytes)
    (s : WebSocketCycle)
    (Haccept : await_app fuel (app req.(scope))
                 (set_initial_body b (__post_init__ req "connect" cid st))
               = Finished tt s) :
  __call__ fuel app b (__post_init__ req "connect" cid st)
    = Finished (mkResponse 200 [] []) s /\
  s.(state) = st.
Proof.
  apply (call_app_finished fuel app b (__post_init__ req "connect" cid st))
    in Haccept as (Hc & _ & Hst).
  now split.
Qed.

(** What the code does in a [connect] invocation whose application rejects
    (its task raises [WebSocketClosed]), whatever the application: the call
    returns status 403, and the state is never advanced, it is the one the
    cycle was constructed with. *)
Theorem connect_reject_status_and_state (fuel : nat) (app : ASGIApp) (b : bytes)
    (s : WebSocketCycle)
    (Hreject : await_app fuel (app req.(scope))
                 (set_initial_body b (__post_init__ req "connect" cid st))
               = Failed WebSocketClosed s) :
  exists self',
    __call__ fuel app b (__post_init__ req "connect" cid st)
      = Finished (mkResponse 403 [] []) self' /\
    self'.(state) = st.
Proof.
  apply (call_app_failed fuel app b (__post_init__ req "connect" cid st))
    in Hreject as (Hc & Hst).
  eexists; split; [exact Hc | exact Hst].
Qed.

(** What the code does in a [disconnect] invocation whose application task
    completes without raising, whatever the application: the call returns
    status 200, and the state is never advanced, it is the one the cycle was
    constructed with. *)
Theorem disconnect_status_and_state (fuel : nat) (app : ASGIApp) (b : bytes)
    (s : WebSocketCycle)
    (Hdone : await_app fuel (app req.(scope))
               (set_initial_body b (__post_init__ req "disconnect" cid st))
             = Finished tt s) :
  __call__ fuel app b (__post_init__ req "disconnect" cid st)
    = Finished (mkResponse 200 [] []) s /\
  s.(state) = st.
Proof.
  apply (call_app_finished fuel app b (__post_init__ req "disconnect" cid st))
    in Hdone as (Hc & _ & Hst).
  now split.
Qed.

(** C10: for every message type, when the application task completes
    without raising the call returns exactly [Response(200, [], b"")],
    whatever the application sent; and every response a call returns has the
    empty header list and the empty body, its status differing from 200 only
    when the task raised. *)
Theorem completed_app_default_response (mt : string) (fuel : nat) (app : ASGIApp)
    (b : bytes) :
  let self := __post_init__ req mt cid st in
  let task := await_app fuel (app req.(scope)) (set_initial_body b self) in
  (forall s, task = Finished tt s ->
     __call__ fuel app b self = Finished (mkResponse 200 [] []) s) /\
  (forall r s, __call__ fuel app b self = Finished r s ->
     r.(headers) = [] /\ r.(body) = [] /\
     (r.(status) <> 200 -> exists e s0, task = Failed e s0)).
Proof.
  cbn zeta. split.
  - intros s Ht.
    now apply (call_app_finished fuel app b (__post_init__ req mt cid st))
      in Ht as (Hc & _).
  - intros r s H.
    apply call_returns_old_response in H as (Hh & Hb & [H | (e & s0 & Ht & _)]);
      repeat split; [exact Hh | exact Hb | cbn in H; congruence
                    | exact Hh | exact Hb | intros _; now exists e, s0].
Qed.

(** C5: the call returns a result and never propagates a failure of the
    application: however the application behaves no exception leaves
    [__call__]; a task that raises [WebSocketClosed] gives status 403, one
    that raises [UnexpectedMessage] gives status 500 whatever the message
    type, and one that raises anything else gives status 500 as well. *)
Theorem call_maps_failures_to_status (fuel : nat) (app : ASGIApp) (b : bytes)
    (self : WebSocketCycle) :
  let task := await_app fuel (app self.(request).(scope)) (set_initial_body b self) in
  (forall e s, __call__ fuel app b self <> Failed e s) /\
  (forall s, task = Failed WebSocketClosed s ->
     exists r s', __call__ fuel app b self = Finished r s' /\ r.(status) = 403) /\
  (forall s, task = Failed UnexpectedMessage s ->
     exists r s', __call__ fuel app b self = Finished r s' /\ r.(status) = 500) /\
  (forall cls s, task = Failed (OtherException cls) s ->
     exists r s', __call__ fuel app b self = Finished r s' /\ r.(status) = 500) /\
  (forall s, task = Finished tt s ->
     exists r s', __call__ fuel app b self = Finished r s').
Proof.
  cbn zeta. rewrite call_unfold.
  destruct (await_app _ _ _) as [u s0|e s0|s0|];
    repeat split; try discriminate; intros; try discriminate; eauto.
  all: match goal with H : Failed _ _ = Failed _ _ |- _ => injection H as -> _ end.
  all: eexists; eexists; split; [reflexivity | reflexivity].
Qed.

(** C6: the event channel is first-in first-out and drops nothing: after
    the events [ms] have been enqueued with [send], in that order, on an
    empty queue, as many successive calls of [receive] return exactly [ms],
    in that order, and leave the queue empty. *)
Theorem queue_is_fifo (ms : list Message) (self : WebSocketCycle)
    (Hempty : self.(app_queue) = Queue.empty) :
  receive_n (List.length ms) (send_all ms self) = Some (ms, self) /\
  receive self = None.
Proof.
  split; [|now apply receive_none].
  unfold Queue.empty in Hempty.
  pose proof (receive_n_send_all ms self) as H.
  rewrite Hempty in H. cbn [List.length Nat.add app] in H. rewrite H.
  now rewrite <- Hempty, set_app_queue_same.
Qed.

(** C8: [state] is never written after construction: the cycle comes out
    of [__post_init__] with the state it was given ([CONNECTING] by
    default), neither [send] nor [receive] nor [run] changes it, and however
    the application behaves and however the call ends the state after
    [__call__] is the state before it. *)
Theorem state_never_written (fuel : nat) (app : ASGIApp) (b : bytes)
    (self : WebSocketCycle) :
  (forall self', cycle_of (__call__ fuel app b self) = Some self' ->
     self'.(state) = self.(state)) /\
  (forall self', cycle_of (run fuel app self) = Some self' ->
     self'.(state) = self.(state)) /\
  (forall m, (send m self).(state) = self.(state)) /\
  (forall m self', receive self = Some (m, self') -> self'.(state) = self.(state)) /\
  (forall mt, (__post_init__ req mt cid st).(state) = st) /\
  (forall mt, (new_cycle req mt cid).(state) = CONNECTING).
Proof.
  repeat split.
  - intros self' H. now apply call_frame in H.
  - intros self'. unfold run.
    destruct (await_app _ _ _) as [u s0|e s0|s0|] eqn:Ht; try discriminate;
      (assert (Hs : cycle_of (await_app fuel (app (scope (request self))) self)
                    = Some s0) by (rewrite Ht; reflexivity));
      apply await_app_only_queue in Hs as (q & ->);
      [|destruct e|]; intros [= <-]; reflexivity.
  - intros m self' H. now apply receive_inv in H as (q & _ & ->).
Qed.

(** C9: [send] and [receive] work on one and the same queue: on an empty
    queue, [send(e)] followed by [receive()] returns [e] itself, to the
    application that sent it; and nothing the application sends reaches the
    response: [send] leaves the response alone, and the response a call
    returns has the headers and body the cycle had before the call, its
    status being the old one, 403 or 500. *)
Theorem send_and_receive_share_queue (e : Message) (self : WebSocketCycle)
    (Hempty : self.(app_queue) = Queue.empty) :
  receive (send e self) = Some (e, self) /\
  (forall fuel k,
     await_app (S (S fuel)) (Vis (Send e) (fun _ => Vis Receive k)) self
     = await_app fuel (k e) self) /\
  (send e self).(response) = self.(response) /\
  (forall fuel app b r s,
     __call__ fuel app b self = Finished r s ->
     r.(headers) = self.(response).(headers) /\
     r.(body) = self.(response).(body) /\
     (r.(status) = self.(response).(status) \/ r.(status) = 403 \/ r.(status) = 500)).
Proof.
  unfold Queue.empty in Hempty.
  assert (Hrecv : receive (send e self) = Some (e, self)).
  { rewrite send_queue, Hempty. cbn [app].
    rewrite (receive_some (set_app_queue [e] self) e [] eq_refl).
    now rewrite set_app_queue_twice, <- Hempty, set_app_queue_same. }
  repeat split.
  - exact Hrecv.
  - intros fuel k. cbn. now rewrite Hrecv.
  - now apply call_returns_old_response in H.
  - now apply call_returns_old_response in H.
  - apply call_returns_old_response in H as (_ & _ & [H | (e0 & s0 & _ & H)]);
      [now left | right; rewrite H; destruct e0; cbn; auto].
Qed.

End Claims.

(** ** The claims at concrete invocations *)

(** C3: a [connect] invocation whose application accepts is to return
    status 200 and leave the cycle in [HANDSHAKE]; the class docstring has
    [state] indicate the state of the connection, [CONNECTING] being the
    initial state only.  The code never assigns [state]: on a freshly
    constructed cycle an application that sends [websocket.accept] and
    returns gets status 200, but the cycle is still [CONNECTING]; it has
    reached neither [HANDSHAKE] nor [RESPONSE]. *)
Lemma connect_accept_not_handshake :
  exists r s,
    await_app 2 (Apps.accept Apps.req.(scope))
      (set_initial_body [] Apps.connect_cycle)
      = Finished tt s /\
    __call__ 2 Apps.accept [] Apps.connect_cycle = Finished r s /\
    r.(status) = 200 /\
    s.(state) = CONNECTING /\
    s.(state) <> HANDSHAKE /\
    s.(state) <> RESPONSE.
Proof.
  eexists; eexists; repeat split; cbn; discriminate.
Qed.

Lemma connect_accept_witness :
  exists s,
    await_app 2 (Apps.accept Apps.req.(scope))
      (set_initial_body [] Apps.connect_cycle)
      = Finished tt s /\
    __call__ 2 Apps.accept [] Apps.connect_cycle
      = Finished (mkResponse 200 [] []) s /\
    s.(state) = CONNECTING.
Proof.
  eexists; split; [reflexivity|].
  apply (connect_accept_status_and_state Apps.req "conn-1" CONNECTING 2
           Apps.accept []).
  reflexivity.
Defined.

(** C4: a [connect] invocation whose application rejects is to return
    status 403 and leave the cycle [CLOSED]; the class docstring has [CLOSED]
    occur when a connection is rejected in response to [websocket.connect].
    The code never assigns [state]: on a freshly constructed cycle an
    application that raises [WebSocketClosed] gets status 403, but the cycle
    is still [CONNECTING], not [CLOSED]. *)
Lemma connect_reject_not_closed :
  exists r s,
    await_app 1 (Apps.reject Apps.req.(scope))
      (set_initial_body [] Apps.connect_cycle)
      = Failed WebSocketClosed (set_initial_body [] Apps.connect_cycle) /\
    __call__ 1 Apps.reject [] Apps.connect_cycle = Finished r s /\
    r.(status) = 403 /\
    s.(state) = CONNECTING /\
    s.(state) <> CLOSED.
Proof.
  eexists; eexists; repeat split; cbn; discriminate.
Qed.

Lemma connect_reject_witness :
  await_app 1 (Apps.reject Apps.req.(scope))
    (set_initial_body [] Apps.connect_cycle)
    = Failed WebSocketClosed (set_initial_body [] Apps.connect_cycle) /\
  exists self',
    __call__ 1 Apps.reject [] Apps.connect_cycle
      = Finished (mkResponse 403 [] []) self' /\
    self'.(state) = CONNECTING.
Proof.
  split; [reflexivity|].
  apply (connect_reject_status_and_state Apps.req "conn-1" CONNECTING 1
           Apps.reject [] (set_initial_body [] Apps.connect_cycle)).
  reflexivity.
Defined.

(** C7: a [disconnect] invocation whose application completes without
    raising is to return status 200 and leave the cycle [CLOSED]; the class
    docstring has the cycle [DISCONNECTING] when it is to be disconnected and
    [CLOSED] once the application has sent [websocket.close].  The code never
    reads [message_type] and never assigns [state]: on a freshly constructed
    cycle an application that sends [websocket.close] and returns after its
    next [receive] gets status 200, but the cycle is still [CONNECTING]; it
    has reached neither [DISCONNECTING] nor [CLOSED]. *)
Lemma disconnect_not_closed :
  exists r s,
    await_app 4 (Apps.loopback Apps.req.(scope))
      (set_initial_body [] Apps.disconnect_cycle)
      = Finished tt s /\
    snd (exchanged 4 (Apps.loopback Apps.req.(scope))
           (set_initial_body [] Apps.disconnect_cycle))
      = [Apps.event "websocket.close"] /\
    __call__ 4 Apps.loopback [] Apps.disconnect_cycle = Finished r s /\
    r.(status) = 200 /\
    s.(state) = CONNECTING /\
    s.(state) <> DISCONNECTING /\
    s.(state) <> CLOSED.
Proof.
  eexists; eexists; repeat split; cbn; discriminate.
Qed.

Lemma disconnect_witness :
  exists s,
    await_app 4 (Apps.loopback Apps.req.(scope))
      (set_initial_body [] Apps.disconnect_cycle) = Finished tt s /\
    __call__ 4 Apps.loopback [] Apps.disconnect_cycle
      = Finished (mkResponse 200 [] []) s /\
    s.(state) = CONNECTING.
Proof.
  eexists; split; [reflexivity|].
  apply (disconnect_status_and_state Apps.req "conn-1" CONNECTING 4
           Apps.loopback []).
  reflexivity.
Defined.

Lemma call_maps_failures_witness :
  (exists r s, __call__ 1 Apps.reject [] Apps.connect_cycle = Finished r s /\
               r.(status) = 403) /\
  (exists r s, __call__ 1 Apps.unexpected [] Apps.disconnect_cycle = Finished r s /\
               r.(status) = 500).
Proof.
  split.
  - destruct (call_maps_failures_to_status 1 Apps.reject [] Apps.connect_cycle)
      as (_ & H & _).
    apply (H (set_initial_body [] Apps.connect_cycle)). reflexivity.
  - destruct (call_maps_failures_to_status 1 Apps.unexpected [] Apps.disconnect_cycle)
      as (_ & _ & H & _).
    apply (H (set_initial_body [] Apps.disconnect_cycle)). reflexivity.
Defined.

Lemma queue_is_fifo_witness :
  Apps.message_cycle.(app_queue) = Queue.empty /\
  receive_n 3 (send_all Apps.three_events Apps.message_cycle)
    = Some (Apps.three_events, Apps.message_cycle) /\
  receive Apps.message_cycle = None.
Proof.
  split; [reflexivity|].
  apply (queue_is_fifo Apps.three_events Apps.message_cycle).
  reflexivity.
Defined.

Lemma state_never_written_witness :
  cycle_of (__call__ 1 Apps.reject [] Apps.connect_cycle)
    = Some (set_response_status 403 (set_initial_body [] Apps.connect_cycle)) /\
  (set_response_status 403 (set_initial_body [] Apps.connect_cycle)).(state)
    = Apps.connect_cycle.(state).
Proof.
  split; [reflexivity|].
  destruct (state_never_written Apps.req "conn-1" CONNECTING 1 Apps.reject []
              Apps.connect_cycle) as (H & _).
  apply H. reflexivity.
Defined.

Lemma send_and_receive_share_queue_witness :
  Apps.message_cycle.(app_queue) = Queue.empty /\
  receive (send (Apps.event "websocket.send") Apps.message_cycle)
    = Some (Apps.event "websocket.send", Apps.message_cycle).
Proof.
  split; [reflexivity|].
  apply (send_and_receive_share_queue (Apps.event "websocket.send")
           Apps.message_cycle).
  reflexivity.
Defined.

Lemma completed_app_default_response_witness :
  exists s,
    await_app 2 (Apps.accept Apps.req.(scope))
      (set_initial_body [] Apps.message_cycle)
      = Finished tt s /\
    __call__ 2 Apps.accept [] Apps.message_cycle
      = Finished (mkResponse 200 [] []) s /\
    s.(app_queue) = [Apps.event "websocket.accept"].
Proof.
  eexists; split; [reflexivity|].
  destruct (completed_app_default_response Apps.req "conn-1" CONNECTING "message"
              2 Apps.accept []) as (H & _).
  split; [apply H; reflexivity | reflexivity].
Defined.


(** ** Further properties of the cycle *)

(** The application task reads and writes the queue and nothing else: run
    on two cycles that hold the same queue it takes the same steps, and
    ends the same way with the same queue. *)
Lemma await_app_rebase (fuel : nat) :
  forall (t : itree asgiE unit) (q : Queue.t) (base1 base2 : WebSocketCycle),
    await_app fuel t (set_app_queue q base2)
    = map_cycle (fun s => set_app_queue s.(app_queue) base2)
        (await_app fuel t (set_app_queue q base1)).
Proof.
  induction fuel as [|fuel IH]; intros t q base1 base2; cbn [await_app].
  - reflexivity.
  - destruct (observe t) as [r|t'|X e k]; [reflexivity | apply IH |].
    destruct e as [|m|e]; [| |reflexivity].
    + destruct q as [|m q]; [reflexivity|].
      rewrite (receive_some (set_app_queue (m :: q) base2) m q eq_refl).
      rewrite (receive_some (set_app_queue (m :: q) base1) m q eq_refl).
      rewrite !set_app_queue_twice. apply IH.
    + rewrite !send_queue, !set_app_queue_twice. apply IH.
Qed.

Lemma exchanged_rebase (fuel : nat) :
  forall (t : itree asgiE unit) (q : Queue.t) (base1 base2 : WebSocketCycle),
    exchanged fuel t (set_app_queue q base2)
    = exchanged fuel t (set_app_queue q base1).
Proof.
  induction fuel as [|fuel IH]; intros t q base1 base2; cbn.
  - reflexivity.
  - destruct (observe t) as [r|t'|X e k]; cbn; [reflexivity | apply IH |].
    destruct e as [|m|e]; cbn; [| |reflexivity].
    + destruct q as [|m q]; cbn; [reflexivity|].
      change (set_app_queue q (set_app_queue (m :: q) base2))
        with (set_app_queue q base2).
      change (set_app_queue q (set_app_queue (m :: q) base1))
        with (set_app_queue q base1).
      now rewrite (IH (k m) q base1 base2).
    + change (send m (set_app_queue q base2))
        with (set_app_queue (q ++ [m]) base2).
      change (send m (set_app_queue q base1))
        with (set_app_queue (q ++ [m]) base1).
      now rewrite (IH (k tt) (q ++ [m]) base1 base2).
Qed.

(** What a call returns and what it leaves on the queue are decided by the
    application, the scope, the queue and the response the cycle holds. *)
Lemma call_rebase (fuel : nat) (app : ASGIApp) (b1 b2 : bytes)
    (self1 self2 : WebSocketCycle) :
  self1.(request).(scope) = self2.(request).(scope) ->
  self1.(app_queue) = self2.(app_queue) ->
  self1.(response) = self2.(response) ->
  returned (__call__ fuel app b1 self1) = returned (__call__ fuel app b2 self2) /\
  queue_left (__call__ fuel app b1 self1) = queue_left (__call__ fuel app b2 self2).
Proof.
  intros Hscope Hq Hr. rewrite !call_unfold, <- Hscope.
  rewrite <- (set_app_queue_same (set_initial_body b1 self1)).
  rewrite <- (set_app_queue_same (set_initial_body b2 self2)).
  cbn [app_queue set_initial_body]. rewrite <- Hq.
  rewrite (await_app_rebase fuel _ _
             (set_initial_body b1 self1) (set_initial_body b2 self2)).
  destruct (await_app fuel _ (set_app_queue _ (set_initial_body b1 self1)))
    as [u s0|e s0|s0|] eqn:Ht; cbn; try (split; reflexivity);
    (assert (Hs : cycle_of (await_app fuel (app (scope (request self1)))
                     (set_app_queue (app_queue self1) (set_initial_body b1 self1)))
                  = Some s0) by (rewrite Ht; reflexivity));
    apply await_app_only_queue in Hs as (q & ->); cbn; rewrite Hr;
    split; reflexivity.
Qed.

(** X1: the result of a call does not depend on the message type, the
    connection identifier, the state or the initial body: on two freshly
    constructed cycles for the same request the application receives and
    sends the same events, the calls return the same response (or both do
    not return), and the same events are left on the queue. *)
Theorem call_ignores_invocation_data (req : WsRequest) (mt mt' cid cid' : string)
    (st st' : WebSocketCycleState) (b b' : bytes) (fuel : nat) (app : ASGIApp) :
  returned (__call__ fuel app b (__post_init__ req mt cid st))
    = returned (__call__ fuel app b' (__post_init__ req mt' cid' st')) /\
  queue_left (__call__ fuel app b (__post_init__ req mt cid st))
    = queue_left (__call__ fuel app b' (__post_init__ req mt' cid' st')) /\
  exchanged fuel (app req.(scope)) (set_initial_body b (__post_init__ req mt cid st))
    = exchanged fuel (app req.(scope))
        (set_initial_body b' (__post_init__ req mt' cid' st')).
Proof.
  split; [|split].
  - apply call_rebase; reflexivity.
  - apply call_rebase; reflexivity.
  - apply (exchanged_rebase fuel (app (scope req)) []
             (set_initial_body b' (__post_init__ req mt' cid' st'))
             (set_initial_body b (__post_init__ req mt cid st))).
Qed.

(** X2: events are received in the order they were queued, at any
    interleaving of [send] and [receive]: when a call has stopped, the events
    the queue held at the start followed by the events the application sent
    are exactly the events it received followed by the events left on the
    queue. *)
Theorem received_in_queue_order (fuel : nat) (app : ASGIApp) (b : bytes)
    (self s : WebSocketCycle)
    (Hstop : cycle_of (__call__ fuel app b self) = Some s) :
  let task := exchanged fuel (app self.(request).(scope)) (set_initial_body b self) in
  self.(app_queue) ++ snd task = fst task ++ s.(app_queue).
Proof.
  cbn zeta.
  destruct (exchanged_conservation fuel (app (scope (request self)))
              (set_initial_body b self)) as (rest & Heq & Hrest).
  cbn [app_queue set_initial_body] in Heq. rewrite Heq. f_equal.
  rewrite call_unfold in Hstop.
  destruct (await_app _ _ _) as [u s0|e s0|s0|]; try discriminate;
    injection Hstop as <-; now rewrite (Hrest s0 eq_refl).
Qed.

(** X3: the response is not reset between calls on one cycle object: when
    a call has returned [r], a later call on the cycle it left whose
    application completes without raising returns [r] again, so the 403 or
    500 of an earlier failure is reported again. *)
Theorem response_survives_next_call (fuel1 fuel2 : nat) (app1 app2 : ASGIApp)
    (b1 b2 : bytes) (self s1 s2 : WebSocketCycle) (r : Response)
    (Hfirst : __call__ fuel1 app1 b1 self = Finished r s1)
    (Hsecond : await_app fuel2 (app2 s1.(request).(scope)) (set_initial_body b2 s1)
               = Finished tt s2) :
  __call__ fuel2 app2 b2 s1 = Finished r s2.
Proof.
  apply call_app_finished in Hsecond as (Hc & _). rewrite Hc. f_equal.
  rewrite call_unfold in Hfirst.
  destruct (await_app _ _ _) as [u s0|e s0|s0|]; try discriminate;
    now injection Hfirst as <- <-.
Qed.

(** The scripted applications, step by step. *)
Lemma await_send_each (ms : list Message) :
  forall self,
    await_app (S (List.length ms)) (send_each ms) self
    = Finished tt (send_all ms self).
Proof.
  induction ms as [|m ms IH]; intros self; [reflexivity|].
  change (await_app (S (List.length (m :: ms))) (send_each (m :: ms)) self)
    with (await_app (S (List.length ms)) (send_each ms) (send m self)).
  apply IH.
Qed.

Lemma await_receive_times (n : nat) :
  forall (q : Queue.t) (base : WebSocketCycle),
    await_app (S n) (receive_times n) (set_app_queue q base)
    = if (n <=? List.length q)%nat
      then Finished tt (set_app_queue (skipn n q) base)
      else Suspended (set_app_queue [] base).
Proof.
  induction n as [|n IH]; intros q base; [reflexivity|].
  destruct q as [|m q]; [reflexivity|].
  change (await_app (S (S n)) (receive_times (S n)) (set_app_queue (m :: q) base))
    with (await_app (S n) (receive_times n) (set_app_queue q base)).
  apply IH.
Qed.

Lemma exchanged_receive_times (n : nat) :
  forall (q : Queue.t) (base : WebSocketCycle),
    exchanged (S n) (receive_times n) (set_app_queue q base) = (firstn n q, []).
Proof.
  induction n as [|n IH]; intros q base; [reflexivity|].
  destruct q as [|m q]; [reflexivity|].
  change (exchanged (S (S n)) (receive_times (S n)) (set_app_queue (m :: q) base))
    with (let (received, sent) :=
            exchanged (S n) (receive_times n) (set_app_queue q base) in
          (m :: received, sent)).
  now rewrite IH.
Qed.

(** The task is parked only on an empty queue. *)
Lemma await_app_suspended_empty (fuel : nat) :
  forall (t : itree asgiE unit) (self s : WebSocketCycle),
    await_app fuel t self = Suspended s -> s.(app_queue) = [].
Proof.
  induction fuel as [|fuel IH]; intros t self s; cbn [await_app].
  - discriminate.
  - destruct (observe t) as [r|t'|X e k]; [discriminate | apply IH |].
    destruct e as [|m|e]; [|apply IH|discriminate].
    destruct (receive self) as [[item s1]|] eqn:Hr; [apply IH|].
    intros [= <-]. unfold receive, Queue.get in Hr.
    now destruct (app_queue self).
Qed.

(** X4: [send] never waits and never fails: an application that sends the
    events [ms] and returns always completes, whatever the queue already
    holds, the call returns the response the cycle held, and the events are
    on the queue behind the earlier ones, in the order sent. *)
Theorem send_only_application_completes (ms : list Message) (b : bytes)
    (self : WebSocketCycle) :
  __call__ (S (List.length ms)) (fun _ => send_each ms) b self
    = Finished self.(response) (send_all ms (set_initial_body b self)) /\
  (send_all ms (set_initial_body b self)).(app_queue) = self.(app_queue) ++ ms.
Proof.
  split.
  - apply (call_app_finished (S (List.length ms)) (fun _ => send_each ms) b self).
    apply await_send_each.
  - now rewrite send_all_queue.
Qed.

(** X5: [receive] hands out what the queue holds and no more: an
    application that calls [receive] [n] times completes when the queue holds
    at least [n] events, which leaves the others on it; when it holds fewer,
    the application is parked on the emptied queue and the call does not
    return, however large the step budget. *)
Theorem receive_beyond_queue_suspends (n : nat) (b : bytes) (self : WebSocketCycle) :
  ((n <= List.length self.(app_queue))%nat ->
   __call__ (S n) (fun _ => receive_times n) b self
   = Finished self.(response)
       (set_app_queue (skipn n self.(app_queue)) (set_initial_body b self))) /\
  ((List.length self.(app_queue) < n)%nat ->
   forall extra,
     __call__ (S n + extra) (fun _ => receive_times n) b self
     = Suspended (set_app_queue [] (set_initial_body b self))).
Proof.
  pose proof (await_receive_times n self.(app_queue) (set_initial_body b self))
    as Hrun.
  change (set_app_queue (app_queue self) (set_initial_body b self))
    with (set_initial_body b self) in Hrun.
  split; intros Hlen.
  - apply Nat.leb_le in Hlen. rewrite Hlen in Hrun.
    now apply (call_app_finished (S n) (fun _ => receive_times n) b self) in Hrun.
  - apply Nat.leb_gt in Hlen. rewrite Hlen in Hrun. intros extra.
    assert (Hcall : __call__ (S n) (fun _ => receive_times n) b self
                    = Suspended (set_app_queue [] (set_initial_body b self)))
      by (rewrite call_unfold; cbv beta; now rewrite Hrun).
    rewrite call_more_fuel; [exact Hcall | rewrite Hcall; discriminate].
Qed.

(** X6: the queue outlives the call: the events an application sends in one
    call on a cycle with an empty queue are, in the same order, the events
    the application of the next call on that cycle receives. *)
Theorem events_sent_reach_next_call (ms : list Message) (b1 b2 : bytes)
    (self : WebSocketCycle) (Hempty : self.(app_queue) = Queue.empty) :
  let s1 := send_all ms (set_initial_body b1 self) in
  __call__ (S (List.length ms)) (fun _ => send_each ms) b1 self
    = Finished self.(response) s1 /\
  fst (exchanged (S (List.length ms)) (receive_times (List.length ms))
         (set_initial_body b2 s1)) = ms /\
  __call__ (S (List.length ms)) (fun _ => receive_times (List.length ms)) b2 s1
    = Finished self.(response) (set_app_queue [] (set_initial_body b2 s1)).
Proof.
  unfold Queue.empty in Hempty. cbn zeta.
  rewrite send_all_queue. cbn [app_queue set_initial_body]. rewrite Hempty.
  cbn [app].
  change (set_initial_body b2 (set_app_queue ms (set_initial_body b1 self)))
    with (set_app_queue ms (set_initial_body b2 (set_initial_body b1 self))).
  repeat split.
  - pose proof (await_send_each ms (set_initial_body b1 self)) as Hrun.
    rewrite send_all_queue in Hrun. cbn [app_queue set_initial_body] in Hrun.
    rewrite Hempty in Hrun. cbn [app] in Hrun.
    now apply (call_app_finished (S (List.length ms)) (fun _ => send_each ms)
                 b1 self) in Hrun.
  - rewrite exchanged_receive_times. cbn [fst]. apply firstn_all.
  - pose proof (await_receive_times (List.length ms) ms
                  (set_initial_body b2 (set_initial_body b1 self))) as Hrun.
    rewrite Nat.leb_refl, skipn_all in Hrun.
    now apply (call_app_finished (S (List.length ms))
                 (fun _ => receive_times (List.length ms)) b2
                 (set_app_queue ms (set_initial_body b1 self))) in Hrun.
Qed.

(** X7: besides the queue, the response status and [initial_body], a call
    writes nothing: however it ends, the request, the message type, the
    connection identifier and the body buffer are what they were, and
    [initial_body] holds the body of this call, replacing any earlier one. *)
Theorem call_keeps_other_attributes (fuel : nat) (app : ASGIApp) (b : bytes)
    (self s : WebSocketCycle)
    (Hstop : cycle_of (__call__ fuel app b self) = Some s) :
  s.(request) = self.(request) /\
  s.(message_type) = self.(message_type) /\
  s.(connection_id) = self.(connection_id) /\
  s.(body_io) = self.(body_io) /\
  s.(initial_body) = Some b.
Proof.
  rewrite call_unfold in Hstop.
  destruct (await_app _ _ _) as [u s0|e s0|s0|] eqn:Ht; try discriminate;
    injection Hstop as <-;
    (assert (Hs : cycle_of (await_app fuel (app (scope (request self)))
                              (set_initial_body b self)) = Some s0)
       by (rewrite Ht; reflexivity));
    apply await_app_only_queue in Hs as (q & ->); repeat split.
Qed.

(** X8: a call that is parked has consumed the whole queue and has not
    touched the response: the cycle it is parked on has an empty queue, the
    response it held before the call, and the body of this call. *)
Theorem suspended_call_has_empty_queue (fuel : nat) (app : ASGIApp) (b : bytes)
    (self s : WebSocketCycle)
    (Hparked : __call__ fuel app b self = Suspended s) :
  s.(app_queue) = [] /\
  s.(response) = self.(response) /\
  s.(initial_body) = Some b.
Proof.
  rewrite call_unfold in Hparked.
  destruct (await_app _ _ _) as [u s0|e s0|s0|] eqn:Ht; try discriminate.
  injection Hparked as <-. split.
  - now apply await_app_suspended_empty in Ht.
  - assert (Hs : cycle_of (await_app fuel (app (scope (request self)))
                             (set_initial_body b self)) = Some s0)
      by (rewrite Ht; reflexivity).
    apply await_app_only_queue in Hs as (q & ->). now split.
Qed.

(** X9: on a queue that is not empty [send] and [receive] do not interfere:
    [receive] after [send(e)] returns the event it would have returned
    before, and leaves the cycle that [send(e)] after [receive] leaves. *)
Theorem send_receive_commute (e m : Message) (self s : WebSocketCycle)
    (Hrecv : receive self = Some (m, s)) :
  receive (send e self) = Some (m, send e s).
Proof.
  apply receive_inv in Hrecv as (q & Hq & ->).
  rewrite send_queue, Hq.
  rewrite (receive_some (set_app_queue ((m :: q) ++ [e]) self) m (q ++ [e]) eq_refl).
  now rewrite send_queue, !set_app_queue_twice.
Qed.

(** ** The further properties at concrete invocations *)

Lemma received_in_queue_order_witness :
  cycle_of (__call__ 4 Apps.loopback [] Apps.message_cycle)
    = Some (set_initial_body [] Apps.message_cycle) /\
  Apps.message_cycle.(app_queue)
    ++ snd (exchanged 4 (Apps.loopback Apps.req.(scope))
              (set_initial_body [] Apps.message_cycle))
  = fst (exchanged 4 (Apps.loopback Apps.req.(scope))
           (set_initial_body [] Apps.message_cycle))
    ++ (set_initial_body [] Apps.message_cycle).(app_queue).
Proof.
  split; [reflexivity|].
  apply (received_in_queue_order 4 Apps.loopback [] Apps.message_cycle
           (set_initial_body [] Apps.message_cycle)).
  reflexivity.
Defined.

Lemma response_survives_next_call_witness :
  __call__ 1 Apps.reject [] Apps.connect_cycle
    = Finished (mkResponse 403 [] [])
        (set_response_status 403 (set_initial_body [] Apps.connect_cycle)) /\
  __call__ 2 Apps.accept []
    (set_response_status 403 (set_initial_body [] Apps.connect_cycle))
    = Finished (mkResponse 403 [] [])
        (send (Apps.event "websocket.accept")
           (set_response_status 403 (set_initial_body [] Apps.connect_cycle))).
Proof.
  split; [reflexivity|].
  apply (response_survives_next_call 1 2 Apps.reject Apps.accept [] []
           Apps.connect_cycle); reflexivity.
Defined.

Lemma receive_beyond_queue_witness :
  (2 <= List.length (send_all Apps.three_events Apps.message_cycle).(app_queue))%nat /\
  __call__ 3 (fun _ => receive_times 2) []
    (send_all Apps.three_events Apps.message_cycle)
  = Finished (mkResponse 200 [] [])
      (set_app_queue [Apps.event "websocket.close"]
         (set_initial_body [] Apps.message_cycle)) /\
  (List.length Apps.message_cycle.(app_queue) < 1)%nat /\
  __call__ (2 + 5) (fun _ => receive_times 1) [] Apps.message_cycle
  = Suspended (set_initial_body [] Apps.message_cycle).
Proof.
  destruct (receive_beyond_queue_suspends 2 []
              (send_all Apps.three_events Apps.message_cycle)) as (Hdone & _).
  destruct (receive_beyond_queue_suspends 1 [] Apps.message_cycle) as (_ & Hpark).
  split; [cbn; lia|].
  split; [apply Hdone; cbn; lia|].
  split; [cbn; lia|].
  apply (Hpark ltac:(cbn; lia) 5%nat).
Defined.

Lemma events_sent_reach_next_call_witness :
  Apps.connect_cycle.(app_queue) = Queue.empty /\
  fst (exchanged 4 (receive_times 3)
         (set_initial_body []
            (send_all Apps.three_events (set_initial_body [] Apps.connect_cycle))))
  = Apps.three_events.
Proof.
  split; [reflexivity|].
  destruct (events_sent_reach_next_call Apps.three_events [] [] Apps.connect_cycle
              eq_refl) as (_ & H & _).
  exact H.
Defined.

Lemma call_keeps_other_attributes_witness :
  cycle_of (__call__ 1 Apps.unexpected [] Apps.disconnect_cycle)
    = Some (set_response_status 500 (set_initial_body [] Apps.disconnect_cycle)) /\
  (set_response_status 500 (set_initial_body [] Apps.disconnect_cycle)).(message_type)
    = Apps.disconnect_cycle.(message_type).
Proof.
  split; [reflexivity|].
  destruct (call_keeps_other_attributes 1 Apps.unexpected [] Apps.disconnect_cycle
              (set_response_status 500 (set_initial_body [] Apps.disconnect_cycle))
              eq_refl) as (_ & H & _).
  exact H.
Defined.

Lemma suspended_call_witness :
  __call__ 3 Apps.receive_first [] Apps.message_cycle
    = Suspended (set_initial_body [] Apps.message_cycle) /\
  (set_initial_body [] Apps.message_cycle).(app_queue) = [].
Proof.
  split; [reflexivity|].
  destruct (suspended_call_has_empty_queue 3 Apps.receive_first []
              Apps.message_cycle (set_initial_body [] Apps.message_cycle) eq_refl)
    as (H & _).
  exact H.
Defined.

Lemma send_receive_commute_witness :
  receive (send (Apps.event "websocket.accept") Apps.message_cycle)
    = Some (Apps.event "websocket.accept", Apps.message_cycle) /\
  receive (send (Apps.event "websocket.close")
             (send (Apps.event "websocket.accept") Apps.message_cycle))
    = Some (Apps.event "websocket.accept",
            send (Apps.event "websocket.close") Apps.message_cycle).
Proof.
  split; [reflexivity|].
  apply (send_receive_commute (Apps.event "websocket.close")
           (Apps.event "websocket.accept")
           (send (Apps.event "websocket.accept") Apps.message_cycle)
           Apps.message_cycle).
  reflexivity.
Defined.
